(** * post-event-api: the project service of [api/index.js]

    A shallow embedding of the single source file of the repository: the
    Express application with its JSON body parser, the multer upload of the
    cover image, the mongoose [Project] model, and the two routes
    [POST /api/projects/create] and [GET /api/projects].

    The handler is asynchronous JavaScript; here every request is a pure
    function from the state of the world (the uploads directory and the
    collection of projects) to a response and a new state.  What a request
    reads from its surroundings (clock, random generator, fresh object id,
    reachability of the database) is gathered in an explicit environment. *)

From stdpp Require Import base strings list gmap sorting pretty.
From Stdlib Require Import ZArith NArith Ascii String Lia.

Set Warnings "-register-all,-clear-no-such-hyp".

Local Open Scope string_scope.
Local Open Scope N_scope.

(** ** JavaScript values and strings *)

Module Js.

(** Values produced by [JSON.parse].  An object keeps its members in
    insertion order; [undefined] is not a JSON value and is rendered by
    [None] wherever a property may be absent.  Numbers are kept to the
    integers that JavaScript holds exactly and prints in plain decimal
    digits (magnitude up to 2^53); no other number is meant by [JNum]. *)
Inductive json : Type :=
| JNull
| JBool (b : bool)
| JNum (n : Z)
| JStr (s : string)
| JArr (items : list json)
| JObj (members : list (string * json)).

(** What [JSON.parse] makes of a text: a [SyntaxError] or a value.  Texts
    that travel in a request (the JSON body, the multipart [data] field)
    are carried in this form. *)
Inductive json_text : Type :=
| Malformed
| Text (v : json).

Fixpoint assoc (k : string) (members : list (string * json)) : option json :=
  match members with
  | [] => None
  | (k', v) :: rest => if String.eqb k k' then Some v else assoc k rest
  end.

(** Property read [v.k] for the member names the handler uses; none of
    them is inherited from a prototype.  [None] is a [TypeError] (reading
    a property of [null]); [Some None] is [undefined]. *)
Definition prop (v : json) (k : string) : option (option json) :=
  match v with
  | JNull => None
  | JObj members => Some (assoc k members)
  | _ => Some None
  end.

(** Truthiness, as used by [!], [&&] and [||]. *)
Definition truthy (v : option json) : bool :=
  match v with
  | None => false
  | Some JNull => false
  | Some (JBool b) => b
  | Some (JNum n) => negb (Z.eqb n 0)
  | Some (JStr s) => negb (String.eqb s "")
  | Some (JArr _) => true
  | Some (JObj _) => true
  end.

(** [a || b] *)
Definition or (a b : option json) : option json :=
  if truthy a then a else b.

(** [pat] occurs somewhere in [s]. *)
Fixpoint includes (pat s : string) : bool :=
  String.prefix pat s ||
  match s with
  | EmptyString => false
  | String _ s' => includes pat s'
  end.

(** [s.startsWith(pat)] *)
Definition startsWith (s pat : string) : bool := String.prefix pat s.

Definition lower_char (c : ascii) : ascii :=
  let n := N_of_ascii c in
  if (65 <=? n) && (n <=? 90) then ascii_of_N (n + 32) else c.

(** [s.toLowerCase()] on a string of bytes: only A-Z change. *)
Fixpoint toLowerCase (s : string) : string :=
  match s with
  | EmptyString => EmptyString
  | String c s' => String (lower_char c) (toLowerCase s')
  end.

(** [s.slice(from, to)] for [0 <= from]. *)
Definition slice (s : string) (from to : Z) : string :=
  substring (Z.to_nat from) (Z.to_nat (to - from)) s.

End Js.

Import Js.

(** ** [path.extname]

    The function of Node's [path] module, after its POSIX implementation:
    one backward scan of the path that records the last dot of the last
    segment. *)

Module Path.

(** The variables of the scanning loop. *)
Record scan : Type := Scan {
  startDot : Z;
  startPart : Z;
  end_ : Z;
  matchedSlash : bool;
  preDotState : Z;
  stopped : bool
}.

Definition scan_init : scan :=
  {| startDot := -1; startPart := 0; end_ := -1; matchedSlash := true;
     preDotState := 0; stopped := false |}.

(** One turn of the loop, at index [i] holding character [code]. *)
Definition scan_step (i : Z) (code : ascii) (st : scan) : scan :=
  if stopped st then st
  else if Ascii.eqb code "/" then
    if negb (matchedSlash st)
    then Scan (startDot st) (i + 1) (end_ st) (matchedSlash st) (preDotState st) true
    else st
  else
    let st1 :=
      if (end_ st =? -1)%Z
      then Scan (startDot st) (startPart st) (i + 1) false (preDotState st) false
      else st in
    if Ascii.eqb code "." then
      if (startDot st1 =? -1)%Z
      then Scan i (startPart st1) (end_ st1) (matchedSlash st1) (preDotState st1) false
      else if negb (preDotState st1 =? 1)%Z
      then Scan (startDot st1) (startPart st1) (end_ st1) (matchedSlash st1) 1 false
      else st1
    else if negb (startDot st1 =? -1)%Z
    then Scan (startDot st1) (startPart st1) (end_ st1) (matchedSlash st1) (-1) false
    else st1.

(** [for (let i = n - 1; i >= 0; --i)] *)
Fixpoint scan_loop (path : string) (n : nat) (st : scan) : scan :=
  match n with
  | O => st
  | S i =>
      match String.get i path with
      | Some code => scan_loop path i (scan_step (Z.of_nat i) code st)
      | None => st
      end
  end.

Definition extname (path : string) : string :=
  let st := scan_loop path (String.length path) scan_init in
  if (startDot st =? -1)%Z
     || (end_ st =? -1)%Z
     || (preDotState st =? 0)%Z
     || ((preDotState st =? 1)%Z
         && (startDot st =? end_ st - 1)%Z
         && (startDot st =? startPart st + 1)%Z)
  then ""
  else slice path (startDot st) (end_ st).

End Path.

(** ** multer: the upload of the cover image

    The data multer hands to the callbacks of the application, and the
    middleware it builds from them. *)

Module Multer.

(** A file part of a multipart body, as the parser reports it: the file
    name and media type declared by the client, and the number of bytes
    that follow. *)
Record incoming : Type := Incoming {
  originalname : string;
  mimetype : string;
  size : N
}.

(** [req.file]: the part together with the name it was stored under. *)
Record file : Type := File {
  part : incoming;
  filename : string
}.

(** Outcome of running the middleware: an error for the callback, or
    [req.file] (absent when the request carried no file). *)
Inductive outcome : Type :=
| Failed (message : string)
| Done (stored : option file).

(** Message of [MulterError('LIMIT_FILE_SIZE')]. *)
Definition LIMIT_FILE_SIZE : string := "File too large".

End Multer.

Import Multer.

(** What a request reads from its surroundings. *)
Record env : Type := Env {
  clock_upload : N;  (* [Date.now()] in [storage.filename] *)
  random : N;        (* [Math.round(Math.random() * 1E9)] *)
  clock_doc : N;     (* [Date.now], the default of [createdAt] *)
  object_id : N;     (* the [_id] drawn for a new document *)
  db_up : bool       (* the database answers *)
}.

(** The [uploads] directory: absent, or a map from file names to the size
    of the file stored under that name. *)
Abbreviation directory := (option (gmap string N)).

(** [storage.destination]: the directory is created when it is missing. *)
Definition storage_destination (fs : directory) : gmap string N :=
  match fs with
  | Some files => files
  | None => ∅
  end.

(** [storage.filename] *)
Definition storage_filename (e : env) (f : incoming) : string :=
  let uniqueSuffix := pretty (clock_upload e) +:+ "-" +:+ pretty (random e) in
  "project-" +:+ uniqueSuffix +:+ Path.extname (originalname f).

(** [/jpeg|jpg|png|gif/.test(s)] *)
Definition filetypes_test (s : string) : bool :=
  includes "jpeg" s || includes "jpg" s || includes "png" s || includes "gif" s.

Definition fileFilter_message : string :=
  "Only image files are allowed (jpeg, jpg, png, gif)".

(** [fileFilter]: [None] is [cb(null, true)], [Some m] is [cb(new Error(m))]. *)
Definition fileFilter (f : incoming) : option string :=
  let mimetype := filetypes_test (mimetype f) in
  let extname := filetypes_test (toLowerCase (Path.extname (originalname f))) in
  if mimetype && extname then None else Some fileFilter_message.

(** [limits.fileSize] *)
Definition fileSize : N := 5 * 1024 * 1024.

(** [upload = multer({storage, fileFilter, limits}).single('coverImage')],
    run on the [coverImage] part of a multipart body.  A part without a
    file name is skipped; the filter runs before anything is written; a
    file that outgrows the limit is unlinked again before the error is
    reported. *)
Definition upload (e : env) (coverImage : option incoming) (fs : directory)
  : outcome * directory :=
  match coverImage with
  | None => (Done None, fs)
  | Some f =>
      if String.eqb (originalname f) "" then (Done None, fs)
      else
        match fileFilter f with
        | Some message => (Failed message, fs)
        | None =>
            let dir := storage_destination fs in
            let name := storage_filename e f in
            if fileSize <? size f
            then (Failed LIMIT_FILE_SIZE, Some (delete name (<[name := fileSize]> dir)))
            else (Done (Some (File f name)), Some (<[name := size f]> dir))
        end
  end.

(** [handleFileUpload]: the promise rejects with the error or resolves with
    [req.file]. *)
Definition handleFileUpload := upload.

(** ** mongoose: the Project model

    A document of [ProjectSchema], and what mongoose does when the model
    is constructed, validated and saved. *)

Record project : Type := Project {
  _id : N;
  title : option string;
  coverImageUrl : option string;
  coverImagePath : option string;
  liveLink : option string;
  description : option string;
  techStack : list (option string);
  price : option string;
  details : option string;
  createdAt : N
}.

Module Mongoose.

Inductive cast (A : Type) : Type :=
| Cast (a : A)
| CastError.
Arguments Cast {A} a.
Arguments CastError {A}.

(** Cast to [String]: [undefined] and [null] stay empty, strings are
    kept, numbers and booleans are printed, an object stands for its
    string [_id] when it has one; anything else cannot be cast. *)
Definition castString (v : option json) : cast (option string) :=
  match v with
  | None => Cast None
  | Some JNull => Cast None
  | Some (JStr s) => Cast (Some s)
  | Some (JNum n) => Cast (Some (pretty n))
  | Some (JBool b) => Cast (Some (if b then "true" else "false"))
  | Some (JArr _) => CastError
  | Some (JObj members) =>
      match assoc "_id" members with
      | Some (JStr s) => if String.eqb s "" then CastError else Cast (Some s)
      | _ => CastError
      end
  end.

Fixpoint castStrings (items : list json) : cast (list (option string)) :=
  match items with
  | [] => Cast []
  | v :: rest =>
      match castString (Some v), castStrings rest with
      | Cast s, Cast ss => Cast (s :: ss)
      | _, _ => CastError
      end
  end.

(** Cast to [[String]]: a value that is not an array is wrapped in one;
    a path without a value holds the empty array. *)
Definition castStringArray (v : option json) : cast (list (option string)) :=
  match v with
  | None => Cast []
  | Some JNull => Cast []
  | Some (JArr items) => castStrings items
  | Some other => castStrings [other]
  end.

(** A document: the values of its paths and the paths whose value could
    not be cast (such a path keeps no value). *)
Record document : Type := Document {
  fields : project;
  invalid : list string
}.

Definition path {A} (name : string) (c : cast A) (dflt : A) : A * list string :=
  match c with
  | Cast a => (a, [])
  | CastError => (dflt, [name])
  end.

(** The [required] validator of a String path. *)
Definition required (s : option string) : bool :=
  match s with
  | Some s => negb (String.eqb s "")
  | None => false
  end.

(** [doc.validate()] against [ProjectSchema]. *)
Definition validate (d : document) : bool :=
  match invalid d with [] => true | _ => false end
  && required (title (fields d))
  && required (description (fields d))
  && required (details (fields d)).

End Mongoose.

Import Mongoose.

(** [new Project({...})]: every member of the literal is cast to the type
    of its path; [_id] and [createdAt] take their defaults. *)
Definition new_Project (e : env)
    (title coverImageUrl coverImagePath liveLink description techStack
     price details : option json) : document :=
  let '(title, e1) := path "title" (castString title) None in
  let '(coverImageUrl, e2) := path "coverImageUrl" (castString coverImageUrl) None in
  let '(coverImagePath, e3) := path "coverImagePath" (castString coverImagePath) None in
  let '(liveLink, e4) := path "liveLink" (castString liveLink) None in
  let '(description, e5) := path "description" (castString description) None in
  let '(techStack, e6) := path "techStack" (castStringArray techStack) [] in
  let '(price, e7) := path "price" (castString price) None in
  let '(details, e8) := path "details" (castString details) None in
  {| fields :=
       {| _id := object_id e; title := title; coverImageUrl := coverImageUrl;
          coverImagePath := coverImagePath; liveLink := liveLink;
          description := description; techStack := techStack; price := price;
          details := details; createdAt := clock_doc e |};
     invalid := (e1 ++ e2 ++ e3 ++ e4 ++ e5 ++ e6 ++ e7 ++ e8)%list |}.

(** [project.save()]: the document is validated, then inserted; [None] is
    a rejected promise. *)
Definition save (e : env) (d : document) (db : list project) : option (list project) :=
  if validate d && db_up e then Some (db ++ [fields d])%list else None.

(** Order of [sort({ createdAt: -1 })]. *)
Definition newer_first (p q : project) : Prop := createdAt q ≤ createdAt p.

Global Instance newer_first_dec p q : Decision (newer_first p q).
Proof. unfold newer_first. apply _. Defined.

(** [Project.find().sort({ createdAt: -1 })] *)
Definition find_sorted (db : list project) : list project :=
  merge_sort newer_first db.

(** ** The Express application *)

(** The entity of a request, by kind: a JSON text with the number of bytes
    it takes on the wire (an empty body counts as the empty object), a
    multipart form with its optional [coverImage] file and its optional
    [data] field, or nothing that a parser of the application would read. *)
Inductive payload : Type :=
| JsonPayload (bytes : N) (text : json_text)
| FormPayload (coverImage : option incoming) (data : option json_text)
| NoPayload.

Record request : Type := Request {
  protocol : string;  (* [req.protocol] *)
  host : string;      (* [req.get('host')] *)
  entity : payload
}.

(** [req.headers['content-type']] *)
Definition content_type (req : request) : option string :=
  match entity req with
  | JsonPayload _ _ => Some "application/json"
  | FormPayload _ _ => Some "multipart/form-data; boundary=xYzZY"
  | NoPayload => None
  end.

Inductive body : Type :=
| ErrorBody (error : string)
| CreatedBody (message : string) (created : project)
| ProjectsBody (projects : list project)
| StatusBody (state : string)
| ParserErrorPage.

Record response : Type := Response {
  status : N;
  content : body
}.

Record world : Type := World {
  uploads : directory;
  projects : list project
}.

(** Outcome of a body parser: the body the route will see, or the status
    of the error it hands to the final handler of Express. *)
Inductive parsed : Type :=
| Parsed (reqbody : json)
| Refused (code : N).

(** The [limit] of [express.json()], left at its default of 100kb. *)
Definition json_limit : N := 100 * 1024.

(** [express.json()]: a JSON entity beyond the limit is refused with 413
    before it is parsed; one that does not parse, or whose top level is
    neither an object nor an array, is refused with 400; without a JSON
    entity the body is the empty object. *)
Definition express_json (req : request) : parsed :=
  match entity req with
  | JsonPayload bytes text =>
      if json_limit <? bytes then Refused 413
      else
        match text with
        | Text (JObj members) => Parsed (JObj members)
        | Text (JArr items) => Parsed (JArr items)
        | _ => Refused 400
        end
  | _ => Parsed (JObj [])
  end.

(** [JSON.parse(req.body.data)]; [None] is a thrown [SyntaxError]. *)
Definition JSON_parse (data : option json_text) : option json :=
  match data with
  | Some (Text v) => Some v
  | _ => None
  end.

Definition form_file (req : request) : option incoming :=
  match entity req with
  | FormPayload coverImage _ => coverImage
  | _ => None
  end.

Definition form_data (req : request) : option json_text :=
  match entity req with
  | FormPayload _ data => data
  | _ => None
  end.

Definition is_multipart (req : request) : bool :=
  match content_type req with
  | Some ct => startsWith ct "multipart/form-data"
  | None => false
  end.

Definition internal_server_error : response :=
  {| status := 500; content := ErrorBody "Internal server error" |}.

(** The form data of the route: [JSON.parse(req.body.data)] for a
    multipart request, [req.body] otherwise.  [None] is a thrown error. *)
Definition formData_of (req : request) (reqbody : json) : option json :=
  if is_multipart req then JSON_parse (form_data req) else Some reqbody.

(** The document the route constructs from the form data and the two
    variables set by the upload; [None] when reading a member throws. *)
Definition assemble (e : env) (formData : json)
    (coverImageUrl coverImagePath : string) : option document :=
  coverImageUrl ←
    (if negb (truthy (Some (JStr coverImageUrl)))
     then given ← prop formData "coverImageUrl";
          Some (if truthy given then given else Some (JStr coverImageUrl))
     else Some (Some (JStr coverImageUrl)));
  title ← prop formData "title";
  liveLink ← prop formData "liveLink";
  description ← prop formData "description";
  techStack ← prop formData "techStack";
  price ← prop formData "price";
  details ← prop formData "details";
  Some (new_Project e title coverImageUrl (Some (JStr coverImagePath)) liveLink
          description (Js.or techStack (Some (JArr []))) price details).

(** The statements of the route between the upload and the response: the
    project and the collection after [save], or [None] when one of them
    throws. *)
Definition build_and_save (e : env) (req : request) (reqbody : json)
    (coverImageUrl coverImagePath : string) (db : list project)
  : option (project * list project) :=
  formData ← formData_of req reqbody;
  project ← assemble e formData coverImageUrl coverImagePath;
  db' ← save e project db;
  Some (fields project, db').

(** The two variables the route sets after the upload. *)
Definition coverImagePath_of (file : option file) : string :=
  match file with
  | Some f => "/uploads/" +:+ filename f
  | None => ""
  end.

Definition coverImageUrl_of (req : request) (file : option file) : string :=
  match file with
  | Some f => protocol req +:+ "://" +:+ host req +:+ coverImagePath_of file
  | None => ""
  end.

(** [app.post('/api/projects/create', ...)], given the parsed body. *)
Definition create_route (e : env) (req : request) (reqbody : json) (w : world)
  : response * world :=
  let '(uploaded, fs) :=
    if is_multipart req
    then handleFileUpload e (form_file req) (uploads w)
    else (Done None, uploads w) in
  match uploaded with
  | Failed message =>
      ({| status := 400; content := ErrorBody message |},
       {| uploads := fs; projects := projects w |})
  | Done file =>
      let coverImagePath := coverImagePath_of file in
      let coverImageUrl := coverImageUrl_of req file in
      match build_and_save e req reqbody coverImageUrl coverImagePath (projects w) with
      | Some (project, db) =>
          ({| status := 201;
              content := CreatedBody "Project created successfully" project |},
           {| uploads := fs; projects := db |})
      | None =>
          (internal_server_error, {| uploads := fs; projects := projects w |})
      end
  end.

(** [POST /api/projects/create] through the middleware stack. *)
Definition post_create (e : env) (req : request) (w : world) : response * world :=
  match express_json req with
  | Refused code => ({| status := code; content := ParserErrorPage |}, w)
  | Parsed reqbody => create_route e req reqbody w
  end.

(** [GET /api/projects] *)
Definition get_projects (e : env) (w : world) : response :=
  if db_up e
  then {| status := 200; content := ProjectsBody (find_sorted (projects w)) |}
  else internal_server_error.

(** [GET /health] *)
Definition get_health : response :=
  {| status := 200; content := StatusBody "OK" |}.

(** A service life: create requests handled one after the other. *)
Fixpoint serve (calls : list (env * request)) (w : world) : list response * world :=
  match calls with
  | [] => ([], w)
  | (e, req) :: rest =>
      let '(r, w1) := post_create e req w in
      let '(rs, w2) := serve rest w1 in
      (r :: rs, w2)
  end.

(** The service before its first request. *)
Definition boot : world := {| uploads := None; projects := [] |}.

(** ** Predicates used in the statements *)

(** What the loop of [path.extname] knows once the characters at index [n]
    and above have been read. *)
Definition scanned (path : string) (n : nat) (st : Path.scan) : Prop :=
  (Path.end_ st = -1 ∨ Z.of_nat n < Path.end_ st)%Z ∧
  (Path.startDot st = -1 ∨
   (Z.of_nat n ≤ Path.startDot st < Path.end_ st ∧
    String.get (Z.to_nat (Path.startDot st)) path = Some "."%char))%Z.

Definition is_digit (c : ascii) : bool :=
  (48 <=? N_of_ascii c) && (N_of_ascii c <=? 57).

Fixpoint all_digits (s : string) : bool :=
  match s with
  | EmptyString => true
  | String c s' => is_digit c && all_digits s'
  end.

(** [s] is empty or starts with a character that is not a digit. *)
Definition no_leading_digit (s : string) : Prop :=
  match s with
  | EmptyString => True
  | String c _ => is_digit c = false
  end.

(** The fields a create request submits: the value of its JSON body, or
    of the [data] field of its multipart form. *)
Definition submitted (req : request) : option json :=
  match entity req with
  | JsonPayload _ (Text v) => Some v
  | FormPayload _ (Some (Text v)) => Some v
  | _ => None
  end.

(** The field named [k] among them, when there is one. *)
Definition field (req : request) (k : string) : option json :=
  match submitted req with
  | Some (JObj members) => assoc k members
  | _ => None
  end.

(** The JSON body of the request, when it has one, takes more bytes than
    the JSON body parser admits. *)
Definition too_large (req : request) : Prop :=
  match entity req with
  | JsonPayload bytes _ => json_limit < bytes
  | _ => False
  end.






(** The response of a successful create. *)
Definition created (p : project) : response :=
  {| status := 201; content := CreatedBody "Project created successfully" p |}.

(** The document the route constructs for a request whose upload left
    [file], written with the submitted fields. *)
Definition document_of (e : env) (req : request) (file : option file) : document :=
  new_Project e (field req "title")
    (if negb (truthy (Some (JStr (coverImageUrl_of req file))))
        && truthy (field req "coverImageUrl")
     then field req "coverImageUrl"
     else Some (JStr (coverImageUrl_of req file)))
    (Some (JStr (coverImagePath_of file)))
    (field req "liveLink") (field req "description")
    (Js.or (field req "techStack") (Some (JArr [])))
    (field req "price") (field req "details").

(** ** Sample inputs *)

Definition sample_env : env :=
  {| clock_upload := 1700000000000; random := 123456789;
     clock_doc := 1700000000005; object_id := 1; db_up := true |}.

Definition sample_fields : json :=
  JObj [("title", JStr "A"); ("description", JStr "d"); ("details", JStr "x")].

(** POST JSON [{"title":"A","description":"d","details":"x"}] *)
Definition json_request : request :=
  {| protocol := "http"; host := "localhost:5000";
     entity := JsonPayload 45 (Text sample_fields) |}.

(** The same fields in a multipart form, with a file as cover image. *)
Definition form_request (f : incoming) : request :=
  {| protocol := "http"; host := "localhost:5000";
     entity := FormPayload (Some f) (Some (Text sample_fields)) |}.


Definition shot_png : incoming :=
  {| originalname := "shot.png"; mimetype := "image/png"; size := 2048 |}.

Definition shot_pngx : incoming :=
  {| originalname := "shot.pngx"; mimetype := "image/png"; size := 2048 |}.

Definition logo_png : incoming :=
  {| originalname := "logo.png"; mimetype := "image/png"; size := 4096 |}.

(** ** The allow-list of the upload *)

Definition allow_list : list string := ["jpeg"; "jpg"; "png"; "gif"].

(** [s] matches the allow-list: one of its words occurs in [s]. *)
Definition matches_allow_list (s : string) : Prop :=
  ∃ word pre post, word ∈ allow_list ∧ s = pre +:+ word +:+ post.

(** The extension of the declared file name, in lower case. *)
Definition extension (f : incoming) : string :=
  toLowerCase (Path.extname (originalname f)).

(** ** Persisted projects *)



Definition untitled_fields : json :=
  JObj [("description", JStr "d"); ("details", JStr "x")].


(** The same fields sent as plain JSON. *)
Definition untitled_json_request : request :=
  {| protocol := "http"; host := "localhost:5000";
     entity := JsonPayload 33 (Text untitled_fields) |}.


(** A multipart create with an image and no [data] field. *)
Definition dataless_request : request :=
  {| protocol := "http"; host := "localhost:5000";
     entity := FormPayload (Some shot_png) None |}.

(** How many of the responses report a created project. *)
Definition created_count (rs : list response) : nat :=
  List.length (filter (λ r, status r = 201) rs).

(** The request [req] with [v] as its submitted fields. *)
Definition with_fields (req : request) (v : json) : request :=
  {| protocol := protocol req; host := host req;
     entity :=
       match entity req with
       | JsonPayload bytes _ => JsonPayload bytes (Text v)
       | FormPayload coverImage _ => FormPayload coverImage (Some (Text v))
       | NoPayload => NoPayload
       end |}.

(** ** Further sample inputs and predicates *)

Definition huge_png : incoming :=
  {| originalname := "huge.png"; mimetype := "image/png"; size := 5242881 |}.

(** The members of the form data the route reads. *)
Definition read_members : list string :=
  ["title"; "coverImageUrl"; "liveLink"; "description"; "techStack"; "price";
   "details"].


(** A service that already holds one uploaded file. *)
Definition stocked : world :=
  {| uploads := Some {[ "project-1-2.png" := 7 ]}; projects := [] |}.

(** A character that is neither a path separator nor a dot. *)
Definition plain_char (c : ascii) : bool :=
  negb (Ascii.eqb c "/") && negb (Ascii.eqb c ".").

Fixpoint string_forallb (P : ascii → bool) (s : string) : bool :=
  match s with
  | EmptyString => true
  | String c s' => P c && string_forallb P s'
  end.

(** What the loop of [path.extname] knows about the segment it is in once
    the characters at index [n] and above have been read: below the
    recorded end there is no separator, above the recorded dot there is
    no further dot. *)
Definition segment_scanned (path : string) (n : nat) (st : Path.scan) : Prop :=
  let lo := if Path.stopped st then Path.startPart st else Z.of_nat n in
  (0 ≤ lo)%Z ∧
  (Path.matchedSlash st = true ↔ Path.end_ st = (-1)%Z) ∧
  (Path.end_ st = (-1)%Z → Path.startDot st = (-1)%Z) ∧
  (Path.end_ st ≠ (-1)%Z →
   (lo < Path.end_ st ≤ Z.of_nat (String.length path))%Z ∧
   ∀ j : nat, (lo ≤ Z.of_nat j < Path.end_ st)%Z →
              String.get j path ≠ Some "/"%char) ∧
  (Path.startDot st = (-1)%Z →
   ∀ j : nat, (lo ≤ Z.of_nat j < Path.end_ st)%Z →
              String.get j path ≠ Some "."%char) ∧
  (Path.startDot st ≠ (-1)%Z →
   (lo ≤ Path.startDot st < Path.end_ st)%Z ∧
   String.get (Z.to_nat (Path.startDot st)) path = Some "."%char ∧
   ∀ j : nat, (Path.startDot st < Z.of_nat j < Path.end_ st)%Z →
              String.get j path ≠ Some "."%char).

(** The state of the loop after a run of plain characters that ends just
    below index [top]. *)
Definition after_plain (top : nat) (st : Path.scan) : Path.scan :=
  Path.Scan (Path.startDot st) (Path.startPart st)
    (if (Path.end_ st =? -1)%Z then Z.of_nat top else Path.end_ st)
    (if (Path.end_ st =? -1)%Z then false else Path.matchedSlash st)
    (if (Path.startDot st =? -1)%Z then Path.preDotState st else (-1)%Z)
    false.

(** A character that is not a path separator. *)
Definition no_separator (c : ascii) : bool := negb (Ascii.eqb c "/").

(** The part of a generated file name in front of the extension. *)
Definition name_stem (e : env) : string :=
  "project-" +:+ (pretty (clock_upload e) +:+ "-" +:+ pretty (random e)).

(** [p] was created before [q]. *)
Definition older (p q : project) : Prop := createdAt p < createdAt q.

(** The clock read for [createdAt] advances from each request to the next. *)
Definition advancing (calls : list (env * request)) : Prop :=
  StronglySorted (λ a b, clock_doc a.1 < clock_doc b.1) calls.

Definition later_env : env :=
  {| clock_upload := 1700000000100; random := 42;
     clock_doc := 1700000000105; object_id := 2; db_up := true |}.

Definition shot_upper : incoming :=
  {| originalname := "SHOT.PNG"; mimetype := "image/png"; size := 2048 |}.

Definition dot_png : incoming :=
  {| originalname := ".png"; mimetype := "image/png"; size := 2048 |}.

(** ** Facts about strings *)

Section string_facts.

Lemma app_cons c s t : String c s +:+ t = String c (s +:+ t).
Proof. reflexivity. Qed.

Lemma app_nil_l t : "" +:+ t = t.
Proof. reflexivity. Qed.

Lemma app_assoc' (s t u : string) : (s +:+ t) +:+ u = s +:+ (t +:+ u).
Proof. induction s as [|c s IH]; [done|]. by rewrite !app_cons, IH. Qed.

Lemma prefix_true pat s :
  String.prefix pat s = true ↔ ∃ post, s = pat +:+ post.
Proof.
  revert s. induction pat as [|c pat IH]; intros s; simpl.
  - split; [intros _; exists s; reflexivity|by destruct s].
  - destruct s as [|c' s]; simpl; [split; [done|intros [? [=]]]|].
    destruct (ascii_dec c c') as [->|Hne].
    + rewrite IH. split; intros [post Hp]; exists post.
      * by rewrite app_cons, <-Hp.
      * rewrite app_cons in Hp. by simplify_eq.
    + split; [done|]. intros [post Hp]. rewrite app_cons in Hp. by simplify_eq.
Qed.

Lemma includes_true pat s :
  includes pat s = true ↔ ∃ pre post, s = pre +:+ pat +:+ post.
Proof.
  induction s as [|c s IH].
  - change (includes pat "") with (String.prefix pat "" || false).
    rewrite orb_true_iff, prefix_true. split.
    + intros [[post Hp]|?]; [|done]. by exists "", post.
    + intros (pre & post & Hp). left. destruct pre; [by exists post|done].
  - change (includes pat (String c s))
      with (String.prefix pat (String c s) || includes pat s).
    rewrite orb_true_iff, prefix_true, IH. split.
    + intros [[post Hp]|(pre & post & Hp)].
      * by exists "", post.
      * exists (String c pre), post. by rewrite app_cons, <-Hp.
    + intros (pre & post & Hp). destruct pre as [|c' pre].
      * left. by exists post.
      * right. exists pre, post. rewrite app_cons in Hp. by simplify_eq.
Qed.

End string_facts.

(** ** [path.extname] on the examples of its documentation *)

Example extname_html : Path.extname "index.html" = ".html".
Proof. reflexivity. Qed.
Example extname_two_dots : Path.extname "index.coffee.md" = ".md".
Proof. reflexivity. Qed.
Example extname_trailing_dot : Path.extname "index." = ".".
Proof. reflexivity. Qed.
Example extname_none : Path.extname "index" = "".
Proof. reflexivity. Qed.
Example extname_dotfile : Path.extname ".index" = "".
Proof. reflexivity. Qed.
Example extname_dotfile_md : Path.extname ".index.md" = ".md".
Proof. reflexivity. Qed.
Example extname_dotdot : Path.extname ".." = "".
Proof. reflexivity. Qed.
Example extname_dir : Path.extname "a.b/c" = "".
Proof. reflexivity. Qed.
Example extname_upper : toLowerCase (Path.extname "Shot.JPG") = ".jpg".
Proof. reflexivity. Qed.

(** ** Shape of the result of [path.extname] *)

Section extname_facts.

Import Path.

Lemma substring_from_get k m c s :
  String.get k s = Some c →
  substring k (S m) s = String c (substring (S k) m s).
Proof.
  revert s. induction k as [|k IH]; intros [|c' s] Hget; simplify_eq/=.
  - by destruct m.
  - by rewrite (IH s).
Qed.

Lemma scanned_step path i code st :
  String.get i path = Some code →
  scanned path (S i) st →
  scanned path i (scan_step (Z.of_nat i) code st).
Proof.
  intros Hget [Hend Hdot]. unfold scan_step, scanned.
  destruct st as [sd sp en ms pd stop]; simpl in *.
  destruct stop; simpl; [split; [lia|]; destruct Hdot as [?|[? ?]]; [by left|right; split; [lia|done]]|].
  destruct (Ascii.eqb_spec code "/") as [->|_].
  { destruct ms; simpl; (split; [lia|]);
      (destruct Hdot as [?|[? ?]]; [by left|right; split; [lia|done]]). }
  destruct (Ascii.eqb_spec code ".") as [->|_];
    destruct (Z.eqb_spec en (-1)) as [->|Hen]; simpl;
    destruct (Z.eqb_spec sd (-1)) as [->|Hsd]; simpl;
    repeat match goal with |- context [negb (?a =? ?b)%Z] => destruct (Z.eqb_spec a b); simpl end;
    (split; [lia|]);
    try (by left);
    try (right; rewrite ?Nat2Z.id; split; [lia|done]);
    try (destruct Hdot as [?|[? ?]]; [lia|right; split; [lia|done]]).
Qed.

Lemma scanned_loop path n st :
  scanned path n st → scanned path 0 (scan_loop path n st).
Proof.
  revert st. induction n as [|n IH]; intros st Hst; simpl.
  - done.
  - destruct (String.get n path) as [code|] eqn:Hget.
    + by apply IH, scanned_step.
    + destruct Hst as [Hend Hdot]. split; [lia|].
      destruct Hdot as [?|[? ?]]; [by left|right; split; [lia|done]].
Qed.

Lemma extname_shape path :
  extname path = "" ∨ ∃ rest, extname path = String "." rest.
Proof.
  unfold extname.
  pose proof (scanned_loop path (String.length path) scan_init) as Hst.
  destruct (scan_loop _ _ _) as [sd sp en ms pd stop]; simpl in *.
  destruct (_ || _) eqn:Hguard; [by left|right].
  rewrite !orb_false_iff in Hguard.
  destruct Hguard as [[[Hsd%Z.eqb_neq Hen%Z.eqb_neq] _] _].
  destruct Hst as [_ [?|[Hrange Hget]]]; [by split; left|done|]. simpl in *.
  unfold slice.
  replace (Z.to_nat (en - sd)) with (S (Z.to_nat (en - sd - 1))) by lia.
  erewrite substring_from_get by done. eauto.
Qed.

End extname_facts.

(** ** Generated file names *)

Section filename_facts.

Lemma pretty_N_char_digit x : is_digit (pretty_N_char x) = true.
Proof. unfold pretty_N_char. by repeat case_match. Qed.

Lemma pretty_N_go_digits x s :
  all_digits s = true → all_digits (pretty_N_go x s) = true.
Proof.
  revert s. induction (N.lt_wf_0 x) as [x _ IH]; intros s Hs.
  assert (x = 0 ∨ 0 < x) as [->|Hpos] by lia.
  - by rewrite pretty_N_go_0.
  - rewrite pretty_N_go_step by done. apply IH.
    + by apply N.div_lt.
    + simpl. by rewrite pretty_N_char_digit.
Qed.

Lemma pretty_N_digits (n : N) : all_digits (pretty n) = true.
Proof.
  unfold pretty, pretty_N. case_decide; [done|].
  by apply pretty_N_go_digits.
Qed.

(** A run of digits followed by something that does not start with a
    digit can be told apart in one way only. *)
Lemma digits_split d1 d2 r1 r2 :
  all_digits d1 = true → all_digits d2 = true →
  no_leading_digit r1 → no_leading_digit r2 →
  d1 +:+ r1 = d2 +:+ r2 → d1 = d2 ∧ r1 = r2.
Proof.
  revert d2. induction d1 as [|c d1 IH]; intros [|c' d2] H1 H2 Hr1 Hr2 Heq;
    rewrite ?app_cons, ?app_nil_l in Heq; simpl in *.
  - done.
  - subst r1. simpl in Hr1. apply andb_true_iff in H2 as [? _]. congruence.
  - subst r2. simpl in Hr2. apply andb_true_iff in H1 as [? _]. congruence.
  - apply andb_true_iff in H1 as [_ H1]. apply andb_true_iff in H2 as [_ H2].
    simplify_eq. destruct (IH d2) as [-> ->]; done.
Qed.

Lemma extname_no_leading_digit path : no_leading_digit (Path.extname path).
Proof. destruct (extname_shape path) as [->|[rest ->]]; done. Qed.

Lemma storage_filename_eq e1 f1 e2 f2 :
  storage_filename e1 f1 = storage_filename e2 f2 ↔
  clock_upload e1 = clock_upload e2 ∧ random e1 = random e2 ∧
  Path.extname (originalname f1) = Path.extname (originalname f2).
Proof.
  unfold storage_filename. split.
  - intros Heq. apply (inj (String.app "project-")) in Heq.
    rewrite !app_assoc' in Heq.
    apply digits_split in Heq as [Hclock Heq];
      [|apply pretty_N_digits|apply pretty_N_digits|done|done].
    rewrite !app_cons, !app_nil_l in Heq. simplify_eq.
    apply digits_split in Heq as [Hrandom Heq];
      [|apply pretty_N_digits|apply pretty_N_digits
       |apply extname_no_leading_digit|apply extname_no_leading_digit].
    apply (inj pretty) in Hrandom. done.
  - by intros (-> & -> & ->).
Qed.

End filename_facts.

(** ** The create route *)

Section create_facts.

Lemma save_Some e d db db' :
  save e d db = Some db' ↔
  validate d = true ∧ db_up e = true ∧ db' = (db ++ [fields d])%list.
Proof.
  unfold save. destruct (validate d), (db_up e); simpl; naive_solver.
Qed.


(** The route reads its form data through [prop] only; unless the form
    data is [null], what it reads is the submitted field. *)
Lemma formData_fields req reqbody formData :
  express_json req = Parsed reqbody →
  formData_of req reqbody = Some formData →
  formData = JNull ∨ ∀ k, prop formData k = Some (field req k).
Proof.
  unfold express_json, formData_of, is_multipart, content_type, form_data,
    field, submitted.
  destruct (entity req) as [bytes [|[]]|f [[|[]]|]|]; simpl;
    try destruct (json_limit <? bytes); intros; simplify_eq; auto.
Qed.

(** The JSON body parser refuses with 413 or with 400, and with 413
    exactly when the body is beyond its limit. *)
Lemma express_json_Refused req code :
  express_json req = Refused code →
  (code = 413 ∧ too_large req) ∨ (code = 400 ∧ ¬ too_large req).
Proof.
  unfold express_json, too_large.
  destruct (entity req) as [bytes text| |]; [|done..].
  destruct (N.ltb_spec json_limit bytes).
  - intros [= <-]. by left.
  - intros Hcode. right. split; [|lia]. by repeat case_match; simplify_eq.
Qed.


Lemma assemble_null e url path : assemble e JNull url path = None.
Proof. unfold assemble. by destruct (negb _). Qed.

Lemma assemble_fields e formData url path get :
  (∀ k, prop formData k = Some (get k)) →
  assemble e formData url path =
  Some (new_Project e (get "title")
          (if negb (truthy (Some (JStr url))) && truthy (get "coverImageUrl")
           then get "coverImageUrl" else Some (JStr url))
          (Some (JStr path)) (get "liveLink") (get "description")
          (Js.or (get "techStack") (Some (JArr []))) (get "price")
          (get "details")).
Proof.
  intros Hget. unfold assemble. rewrite !Hget.
  destruct (negb _); simpl; [|done]. by destruct (truthy _).
Qed.

(** A document is valid exactly when every member could be cast and the
    three required paths hold a non-empty text. *)
Lemma new_Project_valid e t u p l d ts pr x :
  validate (new_Project e t u p l d ts pr x) = true ↔
  ∃ t' u' p' l' d' ts' pr' x',
    castString t = Cast t' ∧ castString u = Cast u' ∧
    castString p = Cast p' ∧ castString l = Cast l' ∧
    castString d = Cast d' ∧ castStringArray ts = Cast ts' ∧
    castString pr = Cast pr' ∧ castString x = Cast x' ∧
    required t' = true ∧ required d' = true ∧ required x' = true ∧
    fields (new_Project e t u p l d ts pr x) =
      Project (object_id e) t' u' p' l' d' ts' pr' x' (clock_doc e).
Proof.
  split.
  - unfold new_Project, validate.
    destruct (castString t), (castString u), (castString p), (castString l),
      (castString d), (castStringArray ts), (castString pr), (castString x);
      simpl; intros Hv; try discriminate.
    rewrite !andb_true_iff in Hv. destruct Hv as [[? ?] ?].
    by eauto 20.
  - intros (t' & u' & p' & l' & d' & ts' & pr' & x' & Ht & Hu & Hp & Hl &
            Hd & Hts & Hpr & Hx & Hrt & Hrd & Hrx & _).
    unfold new_Project, validate.
    rewrite Ht, Hu, Hp, Hl, Hd, Hts, Hpr, Hx. simpl.
    by rewrite Hrt, Hrd, Hrx.
Qed.

Lemma upload_step e req w :
  (if is_multipart req
   then handleFileUpload e (form_file req) (uploads w)
   else (Done None, uploads w))
  = handleFileUpload e (form_file req) (uploads w).
Proof.
  unfold is_multipart, content_type, form_file.
  by destruct (entity req).
Qed.

(** The whole of [post_create], stage by stage. *)
Lemma post_create_run e req w :
  post_create e req w =
  match express_json req with
  | Refused code => ({| status := code; content := ParserErrorPage |}, w)
  | Parsed reqbody =>
      match handleFileUpload e (form_file req) (uploads w) with
      | (Failed message, fs) =>
          ({| status := 400; content := ErrorBody message |},
           {| uploads := fs; projects := projects w |})
      | (Done file, fs) =>
          match formData_of req reqbody with
          | None | Some JNull =>
              (internal_server_error, {| uploads := fs; projects := projects w |})
          | Some _ =>
              match save e (document_of e req file) (projects w) with
              | Some db =>
                  (created (fields (document_of e req file)),
                   {| uploads := fs; projects := db |})
              | None =>
                  (internal_server_error,
                   {| uploads := fs; projects := projects w |})
              end
          end
      end
  end.
Proof.
  unfold post_create.
  destruct (express_json req) as [reqbody|code] eqn:Hjson; [|done].
  unfold create_route. rewrite upload_step.
  destruct (handleFileUpload _ _ _) as [[message|file] fs]; [done|].
  unfold build_and_save.
  destruct (formData_of req reqbody) as [formData|] eqn:Hform; [|done].
  destruct (formData_fields _ _ _ Hjson Hform) as [->|Hget].
  { simpl. by rewrite assemble_null. }
  simpl. rewrite (assemble_fields _ _ _ _ _ Hget). fold (document_of e req file).
  simpl. assert (formData ≠ JNull) by (intros ->; by specialize (Hget "")).
  destruct (save _ _ _); by destruct formData.
Qed.

End create_facts.

(** ** The upload *)

Section upload_facts.

Lemma filetypes_test_true s :
  filetypes_test s = true ↔ matches_allow_list s.
Proof.
  unfold filetypes_test, matches_allow_list, allow_list.
  rewrite !orb_true_iff, !includes_true. split.
  - intros [[[(pre & post & ->)|(pre & post & ->)]|(pre & post & ->)]
           |(pre & post & ->)]; eexists _, pre, post; (split; [|done]);
      set_solver.
  - intros (word & pre & post & Hin & ->).
    set_unfold in Hin. destruct Hin as [->|[->|[->|[->|[]]]]]; eauto 10.
Qed.

Lemma fileFilter_None f :
  fileFilter f = None ↔
  matches_allow_list (mimetype f) ∧ matches_allow_list (extension f).
Proof.
  unfold fileFilter, extension. rewrite <-!filetypes_test_true.
  destruct (filetypes_test (mimetype f)), (filetypes_test _); naive_solver.
Qed.

Lemma fileFilter_Some f message :
  fileFilter f = Some message → message = fileFilter_message.
Proof. unfold fileFilter. case_match; naive_solver. Qed.

(** What the middleware does with a part that names a file. *)
Lemma upload_named e f fs :
  originalname f ≠ "" →
  handleFileUpload e (Some f) fs =
  match fileFilter f with
  | Some message => (Failed message, fs)
  | None =>
      let name := storage_filename e f in
      if fileSize <? size f
      then (Failed LIMIT_FILE_SIZE,
            Some (delete name (<[name := fileSize]> (storage_destination fs))))
      else (Done (Some (File f name)),
            Some (<[name := size f]> (storage_destination fs)))
  end.
Proof.
  intros Hname%String.eqb_neq. unfold handleFileUpload, upload.
  by rewrite Hname.
Qed.

(** The filter turns away every part without a file name, so a part
    that passes it names a file. *)
Lemma fileFilter_named f : fileFilter f = None → originalname f ≠ "".
Proof.
  intros Hfilter Hname. unfold fileFilter in Hfilter. rewrite Hname in Hfilter.
  by rewrite andb_false_r in Hfilter.
Qed.

(** Inversion of an accepted upload. *)
Lemma upload_Done e f fs file fs' :
  handleFileUpload e (Some f) fs = (Done (Some file), fs') →
  fileFilter f = None ∧ size f ≤ fileSize ∧
  file = File f (storage_filename e f) ∧
  fs' = Some (<[storage_filename e f := size f]> (storage_destination fs)).
Proof.
  unfold handleFileUpload, upload.
  destruct (String.eqb _ _); [done|].
  destruct (fileFilter f); [done|].
  destruct (N.ltb_spec fileSize (size f)); [done|].
  intros [= <- <-]. done.
Qed.

(** An accepted upload is within the size limit and passed both checks
    of the filter. *)
Lemma accepted_upload_checked e f fs file fs' :
  handleFileUpload e (Some f) fs = (Done (Some file), fs') →
  size f ≤ fileSize ∧
  matches_allow_list (mimetype f) ∧ matches_allow_list (extension f).
Proof.
  intros (Hfilter%fileFilter_None & Hsize & _)%upload_Done. by split.
Qed.

(** A file beyond the size limit is refused and is not left behind. *)
Lemma oversize_upload_removed e f fs :
  fileFilter f = None → fileSize < size f →
  ∃ fs', handleFileUpload e (Some f) fs = (Failed LIMIT_FILE_SIZE, fs') ∧
         (fs' ≫= (.!! storage_filename e f)) = None.
Proof.
  intros Hfilter Hsize.
  rewrite upload_named by by apply fileFilter_named.
  rewrite Hfilter. simpl. apply N.ltb_lt in Hsize as ->.
  eexists. split; [done|]. simpl. apply lookup_delete_eq.
Qed.

(** A file the filter turns away is never written. *)
Lemma filtered_upload_not_written e f fs message :
  fileFilter f = Some message →
  handleFileUpload e (Some f) fs = (Done None, fs) ∨
  handleFileUpload e (Some f) fs = (Failed fileFilter_message, fs).
Proof.
  intros Hfilter. unfold handleFileUpload, upload.
  destruct (String.eqb _ _); [by left|right].
  rewrite Hfilter. by apply fileFilter_Some in Hfilter as ->.
Qed.

End upload_facts.

(** ** Outcomes of a create *)

Section outcome_facts.

(** Either the document was valid, the database answered and the project
    was appended, or nothing was stored and the status is not 201. *)
Lemma post_create_outcome e req w :
  (∃ file fs,
      handleFileUpload e (form_file req) (uploads w) = (Done file, fs) ∧
      validate (document_of e req file) = true ∧ db_up e = true ∧
      post_create e req w =
        (created (fields (document_of e req file)),
         {| uploads := fs;
            projects := (projects w ++ [fields (document_of e req file)])%list |}))
  ∨ (status (post_create e req w).1 ≠ 201 ∧
     projects (post_create e req w).2 = projects w).
Proof.
  rewrite post_create_run.
  destruct (express_json req) as [reqbody|code] eqn:Hjson.
  2:{ right. split; [|done]. simpl.
      by destruct (express_json_Refused _ _ Hjson) as [[-> _]|[-> _]]. }
  destruct (handleFileUpload _ _ _) as [[message|file] fs] eqn:Hupload;
    [by right|].
  destruct (formData_of req reqbody) as [formData|]; [|by right].
  destruct (save e (document_of e req file) (projects w)) as [db|] eqn:Hsave.
  - apply save_Some in Hsave as (Hvalid & Hdb & ->).
    destruct formData; (try by right); left; eauto 10.
  - right. by destruct formData.
Qed.

Lemma post_create_created e req w p w' :
  post_create e req w = (created p, w') →
  ∃ file fs,
    handleFileUpload e (form_file req) (uploads w) = (Done file, fs) ∧
    validate (document_of e req file) = true ∧ db_up e = true ∧
    p = fields (document_of e req file) ∧
    w' = {| uploads := fs; projects := (projects w ++ [p])%list |}.
Proof.
  intros Hpost.
  destruct (post_create_outcome e req w)
    as [(file & fs & Hupload & Hvalid & Hdb & Heq)|[Hstatus _]].
  - rewrite Hpost in Heq. injection Heq as Hp Hw. subst p w'. eauto 10.
  - by rewrite Hpost in Hstatus.
Qed.




Lemma serve_cons e req rest w :
  serve ((e, req) :: rest) w =
  ((post_create e req w).1 :: (serve rest (post_create e req w).2).1,
   (serve rest (post_create e req w).2).2).
Proof.
  simpl. destruct (post_create e req w) as [r w1]. simpl.
  by destruct (serve rest w1).
Qed.



Lemma serve_count calls w :
  List.length (projects (serve calls w).2) =
  (List.length (projects w) + created_count (serve calls w).1)%nat.
Proof.
  unfold created_count.
  revert w. induction calls as [|[e req] rest IH]; intros w.
  { simpl. lia. }
  rewrite serve_cons. cbn [fst snd]. rewrite IH.
  destruct (post_create_outcome e req w)
    as [(file & fs & _ & _ & _ & ->)|[Hstatus ->]].
  - cbn [fst snd projects]. rewrite filter_cons_True by done.
    rewrite length_app. simpl. lia.
  - rewrite filter_cons_False by done. lia.
Qed.

End outcome_facts.

(** ** What a created project holds *)

Section cover_facts.

Lemma app_not_empty s c t : s +:+ String c t ≠ "".
Proof. by destruct s. Qed.

Lemma coverImageUrl_of_Some req f :
  truthy (Some (JStr (coverImageUrl_of req (Some f)))) = true.
Proof.
  simpl. apply negb_true_iff, String.eqb_neq.
  unfold coverImagePath_of.
  change ("://" +:+ ?s) with (String ":" ("//" +:+ s)).
  apply app_not_empty.
Qed.

(** The two cover paths of the document built for a request. *)
Lemma document_cover e req file :
  validate (document_of e req file) = true →
  coverImagePath (fields (document_of e req file))
    = Some (coverImagePath_of file) ∧
  castString
    (if negb (truthy (Some (JStr (coverImageUrl_of req file))))
        && truthy (field req "coverImageUrl")
     then field req "coverImageUrl"
     else Some (JStr (coverImageUrl_of req file)))
    = Cast (coverImageUrl (fields (document_of e req file))).
Proof.
  intros (t' & u' & p' & l' & d' & ts' & pr' & x' & _ & Hu & Hp & _ & _ & _ &
          _ & _ & _ & _ & _ & Hfields)%new_Project_valid.
  unfold document_of. rewrite Hfields. simpl in *. by simplify_eq.
Qed.

End cover_facts.

(** ** The listing *)

Section listing_facts.

Global Instance newer_first_total : Total newer_first.
Proof. intros p q. unfold newer_first. lia. Qed.

Global Instance newer_first_trans : Transitive newer_first.
Proof. intros p q r. unfold newer_first. lia. Qed.

Lemma find_sorted_all db : find_sorted db ≡ₚ db.
Proof. apply merge_sort_Permutation. Qed.

Lemma find_sorted_descending db : StronglySorted newer_first (find_sorted db).
Proof. apply StronglySorted_merge_sort; apply _. Qed.

End listing_facts.

(** ** Fields the route does not read *)

Section unread_facts.

Lemma field_with_fields req m k :
  entity req ≠ NoPayload → field (with_fields req (JObj m)) k = assoc k m.
Proof.
  unfold field, submitted, with_fields. simpl.
  by destruct (entity req).
Qed.


Lemma with_fields_stages req :
  entity req ≠ NoPayload →
  (∀ m, express_json (with_fields req (JObj m)) = Refused 413) ∨
  (∀ m, ∃ reqbody,
     express_json (with_fields req (JObj m)) = Parsed reqbody ∧
     formData_of (with_fields req (JObj m)) reqbody = Some (JObj m) ∧
     form_file (with_fields req (JObj m)) = form_file req).
Proof.
  unfold express_json, formData_of, is_multipart, content_type, form_file,
    form_data, with_fields. simpl.
  destruct (entity req) as [bytes text| |]; simpl; eauto; [|done].
  destruct (json_limit <? bytes); eauto.
Qed.

Lemma with_fields_too_large req v :
  too_large (with_fields req v) ↔ too_large req.
Proof. unfold too_large, with_fields. simpl. by destruct (entity req). Qed.

End unread_facts.


(** * The claims *)







(** C3.  The code at the failing input: an upload named [shot.pngx] that
    declares the media type [image/png] passes the filter, because [png]
    occurs in its extension; the create is answered with 201 and the file
    is kept under a name that ends in [.pngx], an extension outside
    jpg, jpeg, png, gif. *)
Theorem pngx_upload_is_kept :
  Path.extname (originalname shot_pngx) = ".pngx" ∧
  (".pngx" ∉ [".jpg"; ".jpeg"; ".png"; ".gif"]) ∧
  fileFilter shot_pngx = None ∧
  status (post_create sample_env (form_request shot_pngx) boot).1 = 201 ∧
  (uploads (post_create sample_env (form_request shot_pngx) boot).2
     ≫= (.!! "project-1700000000000-123456789.pngx")) = Some 2048.
Proof.
  split; [reflexivity|]. split; [set_solver|].
  split; [reflexivity|]. split; [reflexivity|]. by vm_compute.
Qed.




(** C5.  In a successful create the project is persisted; when the upload
    left a file, its coverImagePath is the static prefix followed by the
    generated file name and its coverImageUrl is the host (with the
    protocol) followed by that path, whatever coverImageUrl the form
    carries; when no file was accepted and the form supplies a
    coverImageUrl, that text is stored as it is. *)
Theorem cover_image_source e req w p w' :
  post_create e req w = (created p, w') →
  p ∈ projects w' ∧
  (∀ file, (handleFileUpload e (form_file req) (uploads w)).1 = Done (Some file) →
     filename file = storage_filename e (part file) ∧
     (uploads w' ≫= (.!! filename file)) = Some (size (part file)) ∧
     coverImagePath p = Some ("/uploads/" +:+ filename file) ∧
     coverImageUrl p =
       Some (protocol req +:+ "://" +:+ host req +:+ "/uploads/" +:+ filename file)) ∧
  ((handleFileUpload e (form_file req) (uploads w)).1 = Done None →
   ∀ u, field req "coverImageUrl" = Some (JStr u) → coverImageUrl p = Some u).
Proof.
  intros (file & fs & Hupload & Hvalid & _ & -> & ->)%post_create_created.
  destruct (document_cover _ _ _ Hvalid) as [Hpath Hurl].
  rewrite Hupload. cbn [fst projects uploads]. split; [set_solver|]. split.
  - intros file' [= ->].
    destruct (form_file req) as [f|] eqn:Hf; [|done].
    apply upload_Done in Hupload as (_ & _ & -> & ->).
    cbn [filename part mbind option_bind]. split; [done|].
    split; [apply lookup_insert_eq|]. split; [done|].
    rewrite coverImageUrl_of_Some in Hurl. simpl in Hurl. by simplify_eq.
  - intros Hnone u Hu. injection Hnone as ->. rewrite Hu in Hurl. simpl in Hurl.
    destruct (String.eqb_spec u "") as [Hempty|_]; simpl in Hurl;
      by simplify_eq.
Qed.

Lemma cover_image_source_witness :
  ∃ p w', post_create sample_env (form_request shot_png) boot = (created p, w') ∧
    coverImagePath p = Some "/uploads/project-1700000000000-123456789.png" ∧
    coverImageUrl p =
      Some "http://localhost:5000/uploads/project-1700000000000-123456789.png".
Proof.
  eexists _, _. split; [reflexivity|].
  destruct (cover_image_source sample_env (form_request shot_png) boot _ _
              eq_refl) as (_ & Hfile & _).
  destruct (Hfile _ eq_refl) as (_ & _ & Hpath & Hurl).
  split; [exact Hpath|exact Hurl].
Defined.

(** C6.  The listing takes no request data.  While the database answers
    it returns status 200 with every persisted project, none left out and
    none repeated, the most recently created first; after any series of
    create requests on a fresh service it returns exactly as many entries
    as projects were created. *)
Theorem list_all_newest_first e w calls :
  db_up e = true →
  (∃ l, get_projects e w = {| status := 200; content := ProjectsBody l |} ∧
        l ≡ₚ projects w ∧ StronglySorted newer_first l) ∧
  (∃ l, get_projects e (serve calls boot).2
          = {| status := 200; content := ProjectsBody l |} ∧
        List.length l = created_count (serve calls boot).1).
Proof.
  intros Hdb. unfold get_projects. rewrite Hdb. split.
  - eexists. split; [done|]. split.
    + apply find_sorted_all.
    + apply find_sorted_descending.
  - eexists. split; [done|].
    rewrite (Permutation_length (find_sorted_all _)). by rewrite serve_count.
Qed.

Lemma list_all_newest_first_witness :
  ∃ l, get_projects sample_env
         (serve [(sample_env, json_request); (sample_env, untitled_json_request);
                 (sample_env, form_request shot_png)] boot).2
       = {| status := 200; content := ProjectsBody l |} ∧
       List.length l = 2%nat.
Proof.
  destruct (list_all_newest_first sample_env boot
              [(sample_env, json_request); (sample_env, untitled_json_request);
               (sample_env, form_request shot_png)] eq_refl)
    as [_ (l & Hlist & Hcount)].
  exists l. split; [exact Hlist|]. rewrite Hcount. reflexivity.
Defined.




(** C8, as amended.  An accepted upload is written into the uploads
    directory, which is created when it is missing, under the name made of
    the prefix [project-], the time stamp, a dash, the random component and
    the extension of the original file name.  Two generated names are the
    same exactly when time stamp, random component and extension are all
    the same; uploads that differ in any of the three get distinct names. *)
Theorem accepted_upload_is_stored e f fs file fs' :
  handleFileUpload e (Some f) fs = (Done (Some file), fs') →
  filename file =
    "project-" +:+ pretty (clock_upload e) +:+ "-" +:+ pretty (random e)
      +:+ Path.extname (originalname f) ∧
  (fs = None → fs' = Some {[filename file := size f]}) ∧
  (∀ dir, fs = Some dir → fs' = Some (<[filename file := size f]> dir)) ∧
  (∀ e2 f2,
     filename file = storage_filename e2 f2 ↔
     clock_upload e = clock_upload e2 ∧ random e = random e2 ∧
     Path.extname (originalname f) = Path.extname (originalname f2)).
Proof.
  intros (_ & _ & -> & ->)%upload_Done. cbn [filename]. split.
  { unfold storage_filename. by rewrite !app_assoc'. }
  split; [by intros ->|]. split; [by intros dir ->|].
  intros e2 f2. apply storage_filename_eq.
Qed.

Lemma accepted_upload_is_stored_witness :
  ∃ file fs',
    handleFileUpload sample_env (Some shot_png) None = (Done (Some file), fs') ∧
    filename file = "project-1700000000000-123456789.png" ∧
    fs' = Some {[filename file := 2048]}.
Proof.
  eexists _, _. split; [reflexivity|].
  destruct (accepted_upload_is_stored sample_env shot_png None _ _ eq_refl)
    as (Hname & Hnew & _).
  split; [exact Hname|exact (Hnew eq_refl)].
Defined.

(** C8 as stated fails: two different uploads that arrive in the same
    millisecond and draw the same random number get the same name, and the
    second file replaces the first. *)
Lemma same_instant_uploads_collide :
  shot_png ≠ logo_png ∧
  storage_filename sample_env shot_png = storage_filename sample_env logo_png ∧
  (serve [(sample_env, form_request shot_png);
          (sample_env, form_request logo_png)] boot).1
    = [created (fields (document_of sample_env (form_request shot_png)
                          (Some (File shot_png "project-1700000000000-123456789.png"))));
       created (fields (document_of sample_env (form_request logo_png)
                          (Some (File logo_png "project-1700000000000-123456789.png"))))] ∧
  uploads (serve [(sample_env, form_request shot_png);
                  (sample_env, form_request logo_png)] boot).2
    = Some {[ "project-1700000000000-123456789.png" := size logo_png ]}.
Proof.
  split; [discriminate|]. split; [reflexivity|]. split; [reflexivity|].
  by vm_compute.
Qed.



(** C10.  When a multipart create carries a file that is accepted and
    written, but its [data] field is absent or is not valid JSON, the
    answer is the 500 response, the collection of projects is unchanged,
    and the file that was written stays in the uploads directory. *)
Theorem failed_create_keeps_upload e req w f file fs :
  form_file req = Some f →
  handleFileUpload e (Some f) (uploads w) = (Done (Some file), fs) →
  JSON_parse (form_data req) = None →
  post_create e req w
    = (internal_server_error, {| uploads := fs; projects := projects w |}) ∧
  (fs ≫= (.!! filename file)) = Some (size f).
Proof.
  intros Hf Hupload Hdata. rewrite post_create_run.
  assert (express_json req = Parsed (JObj []) ∧ is_multipart req = true)
    as [-> Hmulti].
  { unfold express_json, is_multipart, content_type, form_file in *.
    by destruct (entity req). }
  rewrite Hf, Hupload. unfold formData_of. rewrite Hmulti, Hdata.
  split; [done|].
  apply upload_Done in Hupload as (_ & _ & -> & ->). simpl.
  apply lookup_insert_eq.
Qed.

Lemma failed_create_keeps_upload_witness :
  (post_create sample_env dataless_request boot).1 = internal_server_error ∧
  projects (post_create sample_env dataless_request boot).2 = [] ∧
  (uploads (post_create sample_env dataless_request boot).2
     ≫= (.!! "project-1700000000000-123456789.png")) = Some 2048.
Proof.
  destruct (failed_create_keeps_upload sample_env dataless_request boot
              shot_png _ _ eq_refl eq_refl eq_refl) as [Hpost Hfile].
  rewrite Hpost. split; [reflexivity|]. split; [reflexivity|exact Hfile].
Defined.


(** * Further properties of the service *)


(** X2.  The collection is append-only: whatever requests are served, the
    projects that were stored before are still there, unchanged and in
    the same order, in front of the new ones. *)
Theorem collection_append_only calls w :
  projects w `prefix_of` projects (serve calls w).2.
Proof.
  revert w. induction calls as [|[e req] rest IH]; intros w; [done|].
  rewrite serve_cons. cbn [snd]. etrans; [|apply IH].
  destruct (post_create_outcome e req w)
    as [(file & fs & _ & _ & _ & ->)|[_ ->]]; [|done].
  by apply prefix_app_r.
Qed.

(** X3.  A create request touches at most one file of the uploads
    directory, the one named by [storage.filename] for its own upload:
    every other name holds after the request what it held before, and a
    directory that existed still exists. *)
Theorem other_uploads_untouched e req w name :
  (∀ f, form_file req = Some f → name ≠ storage_filename e f) →
  (uploads (post_create e req w).2 ≫= (.!! name)) = (uploads w ≫= (.!! name)) ∧
  (is_Some (uploads w) → is_Some (uploads (post_create e req w).2)).
Proof.
  intros Hname.
  assert ((handleFileUpload e (form_file req) (uploads w)).2 ≫= (.!! name)
          = (uploads w ≫= (.!! name)) ∧
          (is_Some (uploads w) →
           is_Some (handleFileUpload e (form_file req) (uploads w)).2))
    as Hupload.
  { unfold handleFileUpload, upload.
    destruct (form_file req) as [f|]; [|done].
    specialize (Hname f eq_refl).
    repeat case_match; simpl; try done; (split; [|by eauto]).
    - rewrite lookup_delete_ne, lookup_insert_ne by done.
      by destruct (uploads w).
    - rewrite lookup_insert_ne by done. by destruct (uploads w). }
  rewrite post_create_run.
  destruct (express_json req); [|done].
  destruct (handleFileUpload _ _ _) as [[message|file] fs]; [done|].
  by repeat case_match.
Qed.

Lemma other_uploads_untouched_witness :
  (uploads (post_create sample_env (form_request shot_png) stocked).2
     ≫= (.!! "project-1-2.png")) = Some 7 ∧
  (uploads (post_create sample_env (form_request shot_png) stocked).2
     ≫= (.!! storage_filename sample_env shot_png)) = Some 2048.
Proof.
  destruct (other_uploads_untouched sample_env (form_request shot_png) stocked
              "project-1-2.png") as [Hsame _].
  - intros f [= <-] Hname. vm_compute in Hname. discriminate.
  - split; [rewrite Hsame; reflexivity|by vm_compute].
Defined.

(** X4.  An upload that passes the filter but is larger than 5 MiB is
    answered with 400 and the message [File too large]; no project is
    stored, and no file is left under the generated name. *)
Theorem oversize_upload_rejected e req w f :
  form_file req = Some f → fileFilter f = None → fileSize < size f →
  (post_create e req w).1
    = {| status := 400; content := ErrorBody "File too large" |} ∧
  projects (post_create e req w).2 = projects w ∧
  (uploads (post_create e req w).2 ≫= (.!! storage_filename e f)) = None.
Proof.
  intros Hf Hfilter Hsize. rewrite post_create_run.
  assert (express_json req = Parsed (JObj [])) as ->.
  { unfold express_json, form_file in *. by destruct (entity req). }
  rewrite Hf.
  destruct (oversize_upload_removed e f (uploads w) Hfilter Hsize)
    as (fs' & -> & Hgone).
  done.
Qed.

Lemma oversize_upload_rejected_witness :
  (post_create sample_env (form_request huge_png) boot).1
    = {| status := 400; content := ErrorBody "File too large" |} ∧
  projects (post_create sample_env (form_request huge_png) boot).2 = [] ∧
  (uploads (post_create sample_env (form_request huge_png) boot).2
     ≫= (.!! storage_filename sample_env huge_png)) = None.
Proof.
  apply (oversize_upload_rejected sample_env (form_request huge_png) boot huge_png).
  - reflexivity.
  - reflexivity.
  - reflexivity.
Defined.



(** X6.  Nothing is cleaned up after a failure: when the upload of a
    multipart request was accepted and the request is then not answered
    with 201, whatever the reason, the answer is the 500 response, no
    project is stored, and the uploaded file stays in the directory. *)
Theorem failed_create_orphans_upload e req w file fs :
  handleFileUpload e (form_file req) (uploads w) = (Done (Some file), fs) →
  status (post_create e req w).1 ≠ 201 →
  post_create e req w
    = (internal_server_error, {| uploads := fs; projects := projects w |}) ∧
  (fs ≫= (.!! filename file)) = Some (size (part file)).
Proof.
  intros Hupload Hstatus.
  assert (∃ f, form_file req = Some f) as [f Hf].
  { destruct (form_file req); [by eauto|]. by simplify_eq/=. }
  assert (express_json req = Parsed (JObj [])) as Hjson.
  { unfold express_json, form_file in *. by destruct (entity req). }
  split.
  - rewrite post_create_run in *. rewrite Hjson, Hupload in *.
    repeat case_match; simplify_eq/=; done.
  - rewrite Hf in Hupload. apply upload_Done in Hupload as (_ & _ & -> & ->).
    simpl. apply lookup_insert_eq.
Qed.

Lemma failed_create_orphans_upload_witness :
  ∃ fs,
    post_create sample_env
      {| protocol := "http"; host := "localhost:5000";
         entity := FormPayload (Some shot_png) (Some (Text untitled_fields)) |}
      boot
    = (internal_server_error, {| uploads := fs; projects := [] |}) ∧
    (fs ≫= (.!! "project-1700000000000-123456789.png")) = Some 2048.
Proof.
  eexists.
  apply (failed_create_orphans_upload sample_env
           {| protocol := "http"; host := "localhost:5000";
              entity := FormPayload (Some shot_png) (Some (Text untitled_fields)) |}
           boot (File shot_png "project-1700000000000-123456789.png")).
  - reflexivity.
  - discriminate.
Defined.

(** ** What the route reads and what a created project holds *)

Section contents_facts.

Lemma document_of_read_members e req m m' file :
  (∀ k, k ∈ read_members → assoc k m = assoc k m') →
  document_of e (with_fields req (JObj m)) file
  = document_of e (with_fields req (JObj m')) file.
Proof.
  intros Hsame.
  assert (entity req = NoPayload ∨ entity req ≠ NoPayload) as [Hno|Hsome]
    by (destruct (entity req); auto).
  { unfold with_fields. by rewrite Hno. }
  unfold document_of. rewrite !field_with_fields by done.
  rewrite (Hsame "title"), (Hsame "coverImageUrl"), (Hsame "liveLink"),
    (Hsame "description"), (Hsame "techStack"), (Hsame "price"),
    (Hsame "details") by (unfold read_members; set_solver).
  done.
Qed.

Lemma castStrings_texts tags :
  castStrings (JStr <$> tags) = Cast (Some <$> tags).
Proof.
  induction tags as [|t tags IH]; [done|].
  rewrite !fmap_cons. cbn [castStrings castString]. by rewrite IH.
Qed.

End contents_facts.

(** X7.  The route reads seven members of the form data and no other:
    two create requests of the same kind and body size whose fields agree
    on title, coverImageUrl, liveLink, description, techStack, price and
    details have the same outcome, whatever else (an _id, a createdAt, a
    coverImagePath, an unknown member) either of them carries. *)
Theorem unread_members_ignored e req w m m' :
  (∀ k, k ∈ read_members → assoc k m = assoc k m') →
  post_create e (with_fields req (JObj m)) w
  = post_create e (with_fields req (JObj m')) w.
Proof.
  intros Hsame.
  assert (entity req = NoPayload ∨ entity req ≠ NoPayload) as [Hno|Hsome]
    by (destruct (entity req); auto).
  { unfold with_fields. by rewrite Hno. }
  rewrite !post_create_run.
  destruct (with_fields_stages req Hsome) as [Hbig|Hfits].
  { by rewrite !Hbig. }
  destruct (Hfits m) as (b & -> & -> & ->).
  destruct (Hfits m') as (b' & -> & -> & ->).
  destruct (handleFileUpload _ _ _) as [[message|file] fs]; [done|].
  by rewrite (document_of_read_members e req m m').
Qed.

Lemma unread_members_ignored_witness :
  post_create sample_env
    (with_fields json_request
       (JObj [("_id", JNum 7); ("createdAt", JNum 0); ("admin", JBool true);
              ("title", JStr "A"); ("description", JStr "d");
              ("details", JStr "x")])) boot
  = post_create sample_env
      (with_fields json_request
         (JObj [("title", JStr "A"); ("description", JStr "d");
                ("details", JStr "x")])) boot.
Proof.
  apply (unread_members_ignored sample_env json_request boot).
  intros k Hk. unfold read_members in Hk. set_unfold in Hk.
  destruct Hk as [->|[->|[->|[->|[->|[->|[->|[]]]]]]]]; reflexivity.
Defined.

(** X8.  What a created project holds besides its required fields: its
    _id and createdAt are the ones drawn by the server; a liveLink or
    price given as text is stored as it is and a missing one stays
    absent; a techStack given as a list of texts is stored in the same
    order, and a missing or falsy one ([null], [false], [0], the empty
    text) is stored as the empty list; without an uploaded file and
    without a truthy coverImageUrl the coverImageUrl is the empty text. *)
Theorem created_project_contents e req w p w' :
  post_create e req w = (created p, w') →
  _id p = object_id e ∧ createdAt p = clock_doc e ∧
  (∀ s, field req "liveLink" = Some (JStr s) → liveLink p = Some s) ∧
  (field req "liveLink" = None → liveLink p = None) ∧
  (∀ s, field req "price" = Some (JStr s) → price p = Some s) ∧
  (field req "price" = None → price p = None) ∧
  (∀ tags, field req "techStack" = Some (JArr (JStr <$> tags)) →
           techStack p = Some <$> tags) ∧
  (truthy (field req "techStack") = false → techStack p = []) ∧
  (form_file req = None → truthy (field req "coverImageUrl") = false →
   coverImageUrl p = Some "").
Proof.
  intros (file & fs & Hupload & Hvalid & _ & -> & ->)%post_create_created.
  apply new_Project_valid in Hvalid
    as (t' & u' & p' & l' & d' & ts' & pr' & x' & _ & Hu & _ & Hl & _ & Hts
        & Hpr & _ & _ & _ & _ & Hfields).
  unfold document_of. rewrite Hfields. cbn [_id createdAt liveLink price
    techStack coverImageUrl].
  split; [done|]. split; [done|].
  split; [intros s Hs; rewrite Hs in Hl; by simplify_eq/=|].
  split; [intros Hs; rewrite Hs in Hl; by simplify_eq/=|].
  split; [intros s Hs; rewrite Hs in Hpr; by simplify_eq/=|].
  split; [intros Hs; rewrite Hs in Hpr; by simplify_eq/=|].
  split.
  { intros tags Hs. rewrite Hs in Hts. unfold Js.or in Hts. simpl in Hts.
    rewrite castStrings_texts in Hts. by simplify_eq. }
  split.
  { intros Hs. unfold Js.or in Hts. rewrite Hs in Hts. by simplify_eq/=. }
  intros Hf Hs. rewrite Hf in Hupload. simpl in Hupload.
  injection Hupload as <- _. rewrite Hs, andb_false_r in Hu.
  by simplify_eq/=.
Qed.

Lemma created_project_contents_witness :
  ∃ p w', post_create sample_env json_request boot = (created p, w') ∧
    _id p = 1 ∧ createdAt p = 1700000000005 ∧ liveLink p = None ∧
    price p = None ∧ techStack p = [] ∧ coverImageUrl p = Some "".
Proof.
  eexists _, _. split; [reflexivity|].
  destruct (created_project_contents sample_env json_request boot _ _ eq_refl)
    as (Hid & Hat & _ & Hlink & _ & Hprice & _ & Htech & Hurl).
  split; [exact Hid|]. split; [exact Hat|].
  split; [exact (Hlink eq_refl)|]. split; [exact (Hprice eq_refl)|].
  split; [exact (Htech eq_refl)|exact (Hurl eq_refl eq_refl)].
Defined.

(** ** More about [path.extname] *)

Section extname_more.

Import Path.

Lemma get_Some_length s j c : String.get j s = Some c → (j < String.length s)%nat.
Proof.
  revert j. induction s as [|c' s IH]; intros [|j] Hget; simplify_eq/=;
    [lia|]. apply IH in Hget. lia.
Qed.

Lemma get_None_length s j : String.get j s = None → (String.length s ≤ j)%nat.
Proof.
  revert j. induction s as [|c' s IH]; intros [|j] Hget; simplify_eq/=;
    try lia. apply IH in Hget. lia.
Qed.

Lemma string_forallb_get P s :
  string_forallb P s = true ↔ ∀ j c, String.get j s = Some c → P c = true.
Proof.
  induction s as [|c' s IH]; simpl.
  - split; [by intros _ []|done].
  - rewrite andb_true_iff, IH. split.
    + intros [Hc Hs] [|j] c Hget; simplify_eq/=; eauto.
    + intros Hall. split; [by apply (Hall 0%nat)|].
      intros j c Hget. by apply (Hall (S j)).
Qed.

Lemma string_forallb_app P s t :
  string_forallb P (s +:+ t) = string_forallb P s && string_forallb P t.
Proof.
  induction s as [|c s IH]; [done|].
  rewrite app_cons. simpl. by rewrite IH, andb_assoc.
Qed.

Ltac segment_auto i Hget :=
  repeat split; intros;
  repeat match goal with
    | H : ?a = ?a → _ |- _ => specialize (H eq_refl)
    | H : ?P → _, H' : ?P |- _ =>
        match type of P with Prop => specialize (H H') end
    | H : _ ∧ _ |- _ => destruct H
    | H : _ ↔ _ |- _ => destruct H
    end;
  rewrite ?Nat2Z.id;
  try done; try lia;
  try (match goal with
       | |- String.get ?j _ ≠ _ =>
           destruct (decide (j = i)) as [->|?]; [rewrite Hget; congruence|]
       end);
  try lia;
  try (match goal with
       | H : ∀ j : nat, _ → String.get j _ ≠ Some ?c
         |- String.get _ _ ≠ Some ?c => apply H; lia
       end).

Lemma segment_scanned_step path i code st :
  String.get i path = Some code →
  segment_scanned path (S i) st →
  segment_scanned path i (scan_step (Z.of_nat i) code st).
Proof.
  intros Hget (Hlo & Hms & Hnone & Hend & Hnodot & Hdot).
  pose proof (get_Some_length _ _ _ Hget) as Hlen.
  unfold scan_step, segment_scanned in *.
  destruct st as [sd sp en ms pd stop]; simpl in *.
  destruct stop; simpl; [done|].
  destruct (Ascii.eqb_spec code "/") as [->|Hslash].
  { destruct ms; simpl.
    - assert (en = -1)%Z as -> by by apply Hms.
      segment_auto i Hget.
    - assert (en ≠ -1)%Z as Hen by (intros Hen; apply Hms in Hen; done).
      destruct (Z.eq_dec sd (-1)) as [->|Hsd]; segment_auto i Hget. }
  destruct (Z.eqb_spec en (-1)) as [->|Hen]; simpl;
    destruct (Ascii.eqb_spec code ".") as [->|Hpoint]; simpl;
    destruct (Z.eqb_spec sd (-1)) as [->|Hsd]; simpl;
    try destruct (Z.eqb_spec pd 1); simpl;
    segment_auto i Hget.
Qed.

Lemma segment_scanned_loop path n st :
  (n ≤ String.length path)%nat →
  segment_scanned path n st → segment_scanned path 0 (scan_loop path n st).
Proof.
  revert st. induction n as [|n IH]; intros st Hn Hst; simpl; [done|].
  destruct (String.get n path) as [code|] eqn:Hget.
  - apply IH; [lia|]. by apply segment_scanned_step.
  - apply get_None_length in Hget. lia.
Qed.

Lemma segment_scanned_init path :
  segment_scanned path (String.length path) scan_init.
Proof. unfold segment_scanned. simpl. repeat split; intros; try done; lia. Qed.

(** The extension is empty, or a dot followed by characters none of which
    is a dot or a separator. *)
Lemma extname_parts path :
  extname path = "" ∨
  ∃ rest, extname path = String "." rest ∧ string_forallb plain_char rest = true.
Proof.
  unfold extname.
  pose proof (segment_scanned_loop path _ _ (Nat.le_refl _)
                (segment_scanned_init path)) as Hst.
  destruct (scan_loop _ _ _) as [sd sp en ms pd stop]; simpl in *.
  destruct (_ || _) eqn:Hguard; [by left|right].
  rewrite !orb_false_iff in Hguard.
  destruct Hguard as [[[Hsd%Z.eqb_neq Hen%Z.eqb_neq] _] _].
  destruct Hst as (Hlo & _ & _ & Hend & _ & Hdot). simpl in *.
  destruct (Hend Hen) as [Hrange Hnoslash].
  destruct (Hdot Hsd) as (Hsdrange & Hsdget & Hnodot).
  unfold slice.
  replace (Z.to_nat (en - sd)) with (S (Z.to_nat (en - sd - 1))) by lia.
  erewrite substring_from_get by done.
  eexists. split; [done|]. apply string_forallb_get. intros j c Hj.
  destruct (decide (j < Z.to_nat (en - sd - 1))%nat) as [Hlt|Hge].
  - rewrite substring_correct1 in Hj by done.
    unfold plain_char. apply andb_true_iff. split; apply negb_true_iff.
    + destruct (Ascii.eqb_spec c "/") as [->|]; [|done].
      destruct (Hnoslash (j + S (Z.to_nat sd))%nat); [|done].
      destruct stop; lia.
    + destruct (Ascii.eqb_spec c ".") as [->|]; [|done].
      destruct (Hnodot (j + S (Z.to_nat sd))%nat); [lia|done].
  - rewrite substring_correct2 in Hj by lia. done.
Qed.

Lemma scan_step_plain i c st :
  stopped st = false → plain_char c = true →
  scan_step (Z.of_nat i) c st = after_plain (S i) st.
Proof.
  intros Hstop [Hslash Hpoint]%andb_true_iff.
  apply negb_true_iff in Hslash, Hpoint.
  destruct st as [sd sp en ms pd stop]. simpl in Hstop. subst stop.
  unfold scan_step, after_plain. simpl. rewrite Hslash.
  replace (Z.of_nat (S i)) with (Z.of_nat i + 1)%Z by lia.
  destruct (Z.eqb_spec en (-1)); simpl; rewrite Hpoint;
    by destruct (Z.eqb_spec sd (-1)).
Qed.

Lemma after_plain_twice a b st :
  after_plain a (after_plain b st) = after_plain b st.
Proof.
  destruct st as [sd sp en ms pd stop]. unfold after_plain. simpl.
  destruct (Z.eqb_spec en (-1)); simpl.
  - destruct (Z.eqb_spec (Z.of_nat b) (-1)); [lia|].
    by destruct (Z.eqb_spec sd (-1)).
  - destruct (Z.eqb_spec en (-1)); [done|].
    by destruct (Z.eqb_spec sd (-1)).
Qed.

(** A run of [S k] plain characters, read from index [n + k] down to [n]. *)
Lemma scan_loop_plain path n k st :
  stopped st = false →
  (∀ j, (n ≤ j < n + S k)%nat →
        ∃ c, String.get j path = Some c ∧ plain_char c = true) →
  scan_loop path (n + S k) st = scan_loop path n (after_plain (n + S k) st).
Proof.
  revert st. induction k as [|k IH]; intros st Hstop Hplain.
  - rewrite Nat.add_1_r. simpl.
    destruct (Hplain n) as (c & -> & Hc); [lia|].
    by rewrite scan_step_plain.
  - replace (n + S (S k))%nat with (S (n + S k)) by lia. simpl.
    destruct (Hplain (n + S k)%nat) as (c & -> & Hc); [lia|].
    rewrite scan_step_plain by done.
    rewrite IH; [by rewrite after_plain_twice|done|].
    intros j Hj. apply Hplain. lia.
Qed.

Lemma scan_loop_S path i st :
  scan_loop path (S i) st =
  match String.get i path with
  | Some code => scan_loop path i (scan_step (Z.of_nat i) code st)
  | None => st
  end.
Proof. reflexivity. Qed.

Lemma plain_get s j :
  string_forallb plain_char s = true → (j < String.length s)%nat →
  ∃ c, String.get j s = Some c ∧ plain_char c = true.
Proof.
  intros Hplain Hj. destruct (String.get j s) as [c|] eqn:Hget.
  - exists c. split; [done|]. by eapply string_forallb_get.
  - apply get_None_length in Hget. lia.
Qed.

Lemma length_app_string s t :
  String.length (s +:+ t) = (String.length s + String.length t)%nat.
Proof. induction s as [|c s IH]; [done|]. rewrite app_cons. simpl. by rewrite IH. Qed.

Lemma get_app_l s t j :
  (j < String.length s)%nat → String.get j (s +:+ t) = String.get j s.
Proof. intros Hj. symmetry. by apply append_correct1. Qed.

Lemma get_app_r s t j :
  String.get (String.length s + j) (s +:+ t) = String.get j t.
Proof. rewrite Nat.add_comm. symmetry. apply append_correct2. Qed.

Lemma substring_all s : substring 0 (String.length s) s = s.
Proof. induction s as [|c s IH]; [done|]. simpl. by rewrite IH. Qed.

Lemma substring_app_r s t m :
  substring (String.length s) m (s +:+ t) = substring 0 m t.
Proof. induction s as [|c s IH]; [done|]. by rewrite app_cons. Qed.

(** A name without dot and separator has no extension. *)
Lemma extname_plain name :
  string_forallb plain_char name = true → extname name = "".
Proof.
  intros Hplain. unfold extname.
  destruct (String.length name) as [|k] eqn:Hlen; [done|].
  change (S k) with (0 + S k)%nat.
  rewrite scan_loop_plain; [done|done|].
  intros j Hj. apply plain_get; [done|lia].
Qed.

(** A plain, non-empty name followed by a dot and a plain rest has the
    dot and the rest as its extension. *)
Lemma extname_with_ext name rest :
  name ≠ "" → string_forallb plain_char name = true →
  string_forallb plain_char rest = true →
  extname (name +:+ String "." rest) = String "." rest.
Proof.
  intros Hne Hname Hrest. unfold extname.
  set (path := name +:+ String "." rest).
  assert (String.length path = S (String.length name + String.length rest))
    as Hlen by (unfold path; rewrite length_app_string; simpl; lia).
  assert (String.get (String.length name) path = Some "."%char) as Hpoint.
  { unfold path. by rewrite <-(Nat.add_0_r (String.length name)), get_app_r. }
  assert (∀ j, (j < String.length name)%nat →
               ∃ c, String.get j path = Some c ∧ plain_char c = true) as Hlow.
  { intros j Hj. unfold path. rewrite get_app_l by done. by apply plain_get. }
  assert (∀ j, (S (String.length name) ≤ j < String.length path)%nat →
               ∃ c, String.get j path = Some c ∧ plain_char c = true) as Hhigh.
  { intros j Hj. unfold path.
    replace j with (String.length name + S (j - S (String.length name)))%nat
      by lia.
    rewrite get_app_r. simpl. apply plain_get; [done|lia]. }
  assert (scan_loop path (String.length path) scan_init
          = Scan (Z.of_nat (String.length name)) 0
              (Z.of_nat (String.length path)) false (-1) false) as ->.
  { assert (∃ k, String.length name = S k) as [k Hk]
      by (destruct name; [done|simpl; eauto]).
    (* the rest, the dot, the name *)
    assert (scan_loop path (String.length path) scan_init
            = scan_loop path (S (String.length name))
                (match String.length rest with
                 | O => scan_init
                 | S _ => after_plain (String.length path) scan_init
                 end)) as ->.
    { rewrite Hlen. destruct (String.length rest) as [|r] eqn:Hr.
      - by rewrite Nat.add_0_r.
      - replace (S (String.length name + S r))
          with (S (String.length name) + S r)%nat by lia.
        rewrite scan_loop_plain; [done|done|].
        intros j Hj. apply Hhigh. lia. }
    rewrite scan_loop_S, Hpoint.
    assert (scan_step (Z.of_nat (String.length name)) "."
              (match String.length rest with
               | O => scan_init
               | S _ => after_plain (String.length path) scan_init
               end)
            = Scan (Z.of_nat (String.length name)) 0
                (Z.of_nat (String.length path)) false 0 false) as ->.
    { rewrite Hlen.
      destruct (String.length rest) as [|r];
        unfold scan_step, after_plain, scan_init; simpl; f_equal; lia. }
    rewrite Hk. change (S k) with (0 + S k)%nat at 1.
    rewrite scan_loop_plain; [|done|intros j Hj; apply Hlow; lia].
    simpl. unfold after_plain. simpl.
    destruct (Z.eqb_spec (Z.of_nat (String.length path)) (-1)); [lia|].
    by destruct (Z.eqb_spec (Z.of_nat (0 + S k)) (-1)); [lia|]. }
  simpl.
  destruct (Z.eqb_spec (Z.of_nat (String.length name)) (-1)); [lia|].
  destruct (Z.eqb_spec (Z.of_nat (String.length path)) (-1)); [lia|]. simpl.
  unfold slice. rewrite Nat2Z.id.
  replace (Z.to_nat (Z.of_nat (String.length path) - Z.of_nat (String.length name)))
    with (String.length (String "." rest)) by (simpl; lia).
  unfold path. rewrite substring_app_r. apply substring_all.
Qed.

End extname_more.

(** ** Generated names and their extension *)

Section stem_facts.

Lemma string_forallb_impl (P Q : ascii → bool) s :
  (∀ c, P c = true → Q c = true) →
  string_forallb P s = true → string_forallb Q s = true.
Proof.
  intros HPQ. induction s as [|c s IH]; simpl; [done|].
  rewrite !andb_true_iff. intros [? ?]. auto.
Qed.

Lemma digit_plain c : is_digit c = true → plain_char c = true.
Proof.
  intros Hc. unfold plain_char.
  destruct (Ascii.eqb_spec c "/") as [->|_]; [done|].
  by destruct (Ascii.eqb_spec c ".") as [->|_].
Qed.

Lemma all_digits_plain s :
  all_digits s = true → string_forallb plain_char s = true.
Proof.
  induction s as [|c s IH]; simpl; [done|].
  rewrite !andb_true_iff. intros [? ?]. auto using digit_plain.
Qed.

Lemma plain_no_separator c : plain_char c = true → no_separator c = true.
Proof. unfold plain_char, no_separator. by intros [? _]%andb_true_iff. Qed.

Lemma name_stem_plain e : string_forallb plain_char (name_stem e) = true.
Proof.
  unfold name_stem. rewrite !string_forallb_app, !andb_true_iff.
  repeat split; try done; apply all_digits_plain, pretty_N_digits.
Qed.

Lemma name_stem_not_empty e : name_stem e ≠ "".
Proof. done. Qed.

Lemma storage_filename_stem e f :
  storage_filename e f = name_stem e +:+ Path.extname (originalname f).
Proof. unfold storage_filename, name_stem. by rewrite !app_assoc'. Qed.

End stem_facts.

(** X9.  A generated file name contains no path separator, whatever file
    name the client declared: the stored file cannot leave the uploads
    directory through its name. *)
Theorem generated_name_has_no_separator e f pre post :
  storage_filename e f ≠ pre +:+ "/" +:+ post.
Proof.
  intros Heq.
  assert (string_forallb no_separator (storage_filename e f) = true) as Hname.
  { rewrite storage_filename_stem, string_forallb_app, andb_true_iff. split.
    - eapply string_forallb_impl; [apply plain_no_separator|].
      apply name_stem_plain.
    - destruct (extname_parts (originalname f)) as [->|(rest & -> & Hrest)];
        [done|].
      simpl. eapply string_forallb_impl; [apply plain_no_separator|done]. }
  rewrite Heq, !string_forallb_app in Hname.
  by rewrite andb_false_r in Hname.
Qed.

(** X10.  The extension survives the renaming: the extension of the
    generated file name, as [path.extname] finds it, is the extension of
    the file name the client declared. *)
Theorem generated_name_keeps_extension e f :
  Path.extname (storage_filename e f) = Path.extname (originalname f).
Proof.
  rewrite storage_filename_stem.
  destruct (extname_parts (originalname f)) as [->|(rest & -> & Hrest)].
  - assert (name_stem e +:+ "" = name_stem e) as ->.
    { induction (name_stem e) as [|c s IH]; [done|]. by rewrite app_cons, IH. }
    apply extname_plain, name_stem_plain.
  - apply extname_with_ext; [done|apply name_stem_plain|done].
Qed.

(** ** Letter case in the declared file name *)

Section case_facts.

Import Path.

Lemma lower_char_separator c :
  Ascii.eqb (lower_char c) "/" = Ascii.eqb c "/" ∧
  Ascii.eqb (lower_char c) "." = Ascii.eqb c ".".
Proof. by destruct c as [[] [] [] [] [] [] [] []]. Qed.

Lemma scan_step_lower i c st :
  scan_step i (lower_char c) st = scan_step i c st.
Proof.
  unfold scan_step. by destruct (lower_char_separator c) as [-> ->].
Qed.

Lemma length_toLowerCase s : String.length (toLowerCase s) = String.length s.
Proof. induction s as [|c s IH]; simpl; [done|]. by rewrite IH. Qed.

Lemma get_toLowerCase s j :
  String.get j (toLowerCase s) = lower_char <$> String.get j s.
Proof.
  revert j. induction s as [|c s IH]; intros [|j]; simpl; by rewrite ?IH.
Qed.

Lemma scan_loop_lower s n st :
  scan_loop (toLowerCase s) n st = scan_loop s n st.
Proof.
  revert st. induction n as [|n IH]; intros st; simpl; [done|].
  rewrite get_toLowerCase. destruct (String.get n s) as [c|]; simpl; [|done].
  by rewrite scan_step_lower.
Qed.

Lemma substring_toLowerCase n m s :
  substring n m (toLowerCase s) = toLowerCase (substring n m s).
Proof.
  revert n m. induction s as [|c s IH]; intros [|n] [|m]; simpl; try done;
    by rewrite ?IH.
Qed.

(** Lowering the case of a path lowers the case of its extension and
    changes nothing else about it. *)
Lemma extname_toLowerCase s :
  extname (toLowerCase s) = toLowerCase (extname s).
Proof.
  unfold extname. rewrite length_toLowerCase, scan_loop_lower.
  destruct (_ || _); [done|]. unfold slice. apply substring_toLowerCase.
Qed.

End case_facts.

(** X11.  The filter does not look at the letter case of the file name:
    two parts that declare the same media type and file names that differ
    in letter case only get the same verdict. *)
Theorem filter_ignores_case_of_name f g :
  mimetype f = mimetype g →
  toLowerCase (originalname f) = toLowerCase (originalname g) →
  fileFilter f = fileFilter g.
Proof.
  intros Hmime Hname. unfold fileFilter.
  by rewrite <-!extname_toLowerCase, Hmime, Hname.
Qed.

Lemma filter_ignores_case_of_name_witness :
  fileFilter shot_upper = fileFilter shot_png.
Proof.
  apply (filter_ignores_case_of_name shot_upper shot_png); reflexivity.
Defined.

(** ** Order of the listing *)

Section order_facts.

Lemma createdAt_new_Project e t u p l d ts pr x :
  createdAt (fields (new_Project e t u p l d ts pr x)) = clock_doc e.
Proof.
  unfold new_Project.
  by destruct (path "title" _ _), (path "coverImageUrl" _ _),
    (path "coverImagePath" _ _), (path "liveLink" _ _),
    (path "description" _ _), (path "techStack" _ _), (path "price" _ _),
    (path "details" _ _).
Qed.

Lemma older_unique db p q :
  StronglySorted older db → p ∈ db → q ∈ db → createdAt p = createdAt q →
  p = q.
Proof.
  unfold older.
  induction 1 as [|r db Hdb IH Hr]; intros Hp Hq Heq; [by inv Hp|].
  rewrite Forall_forall in Hr.
  inv Hp; inv Hq; [done|..|by apply IH];
    match goal with H : _ ∈ db |- _ => specialize (Hr _ H) end; lia.
Qed.

Lemma older_reverse db :
  StronglySorted older db → StronglySorted newer_first (reverse db).
Proof.
  unfold older.
  induction 1 as [|r db Hdb IH Hr]; [constructor|].
  rewrite reverse_cons. apply StronglySorted_app_2; [|done|repeat constructor].
  intros p q Hp Hq. rewrite elem_of_reverse in Hp. rewrite Forall_forall in Hr.
  apply list_elem_of_singleton in Hq as ->.
  unfold newer_first. specialize (Hr p Hp). lia.
Qed.

(** Projects stored in order of creation come back in the opposite order. *)
Lemma find_sorted_reverse db :
  StronglySorted older db → find_sorted db = reverse db.
Proof.
  intros Hdb.
  apply (StronglySorted_unique_strong newer_first).
  - intros p q Hp Hq Hpq Hqp. apply (older_unique db); [done|..].
    + by rewrite <-(find_sorted_all db).
    + by apply elem_of_reverse.
    + unfold newer_first in *. lia.
  - apply find_sorted_descending.
  - by apply older_reverse.
  - by rewrite find_sorted_all, reverse_Permutation.
Qed.

Lemma serve_chronological calls w :
  StronglySorted older (projects w) →
  (∀ p c, p ∈ projects w → c ∈ calls → createdAt p < clock_doc c.1) →
  advancing calls →
  StronglySorted older (projects (serve calls w).2).
Proof.
  unfold advancing.
  revert w. induction calls as [|[e req] rest IH]; intros w Hw Hbefore Hcalls;
    [done|].
  apply StronglySorted_cons in Hcalls as [Hfirst Hrest].
  rewrite Forall_forall in Hfirst.
  rewrite serve_cons. cbn [snd]. apply IH; [| |done].
  - destruct (post_create_outcome e req w)
      as [(file & fs & _ & _ & _ & ->)|[_ ->]]; [|done].
    cbn [snd projects]. apply StronglySorted_app_2; [|done|repeat constructor].
    intros p q Hp ->%list_elem_of_singleton. unfold older, document_of.
    rewrite createdAt_new_Project.
    apply (Hbefore p (e, req)); [done|by left].
  - intros p c Hp Hc.
    destruct (post_create_outcome e req w)
      as [(file & fs & _ & _ & _ & Heq)|[_ Heq]]; rewrite Heq in Hp.
    + cbn [snd projects] in Hp. apply elem_of_app in Hp as [Hp|Hp].
      * apply Hbefore; [done|by right].
      * apply list_elem_of_singleton in Hp as ->. unfold document_of.
        rewrite createdAt_new_Project. by apply (Hfirst c).
    + apply Hbefore; [done|by right].
Qed.

End order_facts.

(** X12.  When the clock advances from each create request to the next,
    the listing returns the projects in the reverse of the order in which
    they were created: the last one created comes first. *)
Theorem listing_reverses_creation e calls :
  advancing calls → db_up e = true →
  get_projects e (serve calls boot).2
  = {| status := 200;
       content := ProjectsBody (reverse (projects (serve calls boot).2)) |}.
Proof.
  intros Hcalls Hdb. unfold get_projects. rewrite Hdb.
  rewrite find_sorted_reverse; [done|].
  apply serve_chronological; [constructor| |done].
  intros p c Hp. by inv Hp.
Qed.

Lemma listing_reverses_creation_witness :
  get_projects sample_env
    (serve [(sample_env, json_request); (later_env, form_request shot_png)] boot).2
  = {| status := 200;
       content :=
         ProjectsBody
           (reverse (projects
              (serve [(sample_env, json_request);
                      (later_env, form_request shot_png)] boot).2)) |}.
Proof.
  apply (listing_reverses_creation sample_env
           [(sample_env, json_request); (later_env, form_request shot_png)]).
  - unfold advancing. repeat constructor.
  - reflexivity.
Defined.

(** ** Names without an extension *)

Section dotfile_facts.

Import Path.

(** A name that is a dot followed by plain characters has no extension. *)
Lemma extname_leading_dot rest :
  string_forallb plain_char rest = true → extname (String "." rest) = "".
Proof.
  intros Hrest. unfold extname.
  set (path := String "." rest).
  assert (scan_loop path (String.length path) scan_init
          = Scan 0 0 (Z.of_nat (String.length path)) false 0 false) as ->.
  { assert (scan_loop path (String.length path) scan_init
            = scan_loop path 1
                (match String.length rest with
                 | O => scan_init
                 | S _ => after_plain (String.length path) scan_init
                 end)) as ->.
    { unfold path. simpl String.length.
      destruct (String.length rest) as [|r] eqn:Hr; [done|].
      change (S (S r)) with (1 + S r)%nat.
      rewrite scan_loop_plain; [done|done|].
      intros [|j] Hj; [lia|]. simpl. apply plain_get; [done|lia]. }
    rewrite scan_loop_S. simpl String.get. cbn [scan_loop].
    unfold path. simpl String.length.
    by destruct (String.length rest). }
  done.
Qed.

Lemma no_extension_rejected f :
  Path.extname (originalname f) = "" → fileFilter f = Some fileFilter_message.
Proof.
  intros Hext. unfold fileFilter. rewrite Hext. simpl.
  by rewrite andb_false_r.
Qed.

End dotfile_facts.

(** X13.  A file whose declared name has no extension, because it has no
    dot at all or because its only dot comes first (as in [.png]), is
    turned away with 400 and the message of the filter, whatever media
    type it declares; nothing is written and nothing is stored. *)
Theorem name_without_extension_rejected e proto h f data w stem :
  stem ≠ "" → string_forallb plain_char stem = true →
  originalname f = stem ∨ originalname f = String "." stem →
  post_create e {| protocol := proto; host := h;
                   entity := FormPayload (Some f) data |} w
  = ({| status := 400;
        content := ErrorBody "Only image files are allowed (jpeg, jpg, png, gif)" |},
     w).
Proof.
  intros Hne Hplain Hname.
  assert (Path.extname (originalname f) = "") as Hext.
  { destruct Hname as [-> | ->]; [by apply extname_plain|by apply extname_leading_dot]. }
  assert (originalname f ≠ "") as Hnamed.
  { destruct Hname as [-> | ->]; done. }
  rewrite post_create_run. cbn [express_json form_file entity uploads].
  rewrite upload_named by done.
  rewrite (no_extension_rejected f Hext). by destruct w.
Qed.

Lemma name_without_extension_rejected_witness :
  post_create sample_env (form_request dot_png) boot
  = ({| status := 400;
        content := ErrorBody "Only image files are allowed (jpeg, jpg, png, gif)" |},
     boot).
Proof.
  apply (name_without_extension_rejected sample_env "http" "localhost:5000"
           dot_png (Some (Text sample_fields)) boot "png").
  - discriminate.
  - reflexivity.
  - right. reflexivity.
Defined.
